(** * Ignition volume provisioning (libvirt/coreos_ignition_def.go)

    A shallow embedding of [defIgnition], its identifier codec
    ([buildTerraformKey], [getIgnitionVolumeKeyFromTerraformID]), the payload
    materializer ([createFile]) and the provisioner ([CreateAndUpload]),
    followed by the properties the specification states about them.

    Go strings are byte sequences: they are modelled by [string] (a list of
    [ascii]).  A Go [error] is modelled by its message.  A Go result pair
    [(string, error)] is a pair whose second component is [None] for [nil]. *)

From Stdlib Require Import ZArith Ascii String.
From stdpp Require Import base option list strings gmap.

Open Scope string_scope.

(** ** Errors *)

(** Go's [error] interface, observed through [Error()]. *)
Inductive error : Type :=
| Errorf (msg : string).

Definition Error (e : error) : string :=
  match e with Errorf m => m end.

#[global] Instance error_eq_dec : EqDecision error.
Proof. solve_decision. Defined.

(** ** The part of package [strings] the source uses *)

Module strings.

(** [strings.HasPrefix(s, prefix)]. *)
Fixpoint HasPrefix (s prefix : string) : bool :=
  match prefix, s with
  | EmptyString, _ => true
  | String _ _, EmptyString => false
  | String p prefix', String c s' =>
      if Ascii.eqb c p then HasPrefix s' prefix' else false
  end.

(** [strings.Index(s, sep)]: the offset of the first instance of [sep] in
    [s]; Go returns -1 where this returns [None]. *)
Fixpoint Index (s sep : string) : option nat :=
  if HasPrefix s sep then Some 0
  else match s with
       | EmptyString => None
       | String _ s' => S <$> Index s' sep
       end.

(** The slice expressions [s[:m]] and [s[m:]]. *)
Fixpoint slice_to (m : nat) (s : string) : string :=
  match m, s with
  | S m', String c s' => String c (slice_to m' s')
  | _, _ => EmptyString
  end.

Fixpoint slice_from (m : nat) (s : string) : string :=
  match m, s with
  | S m', String _ s' => slice_from m' s'
  | _, _ => s
  end.

(** The loop of [genSplit(s, sep, 0, n)] for a non-empty [sep], with
    [k = n - 1] separators still to be consumed:
      for i < n { m := Index(s, sep); if m < 0 { break };
                  a[i] = s[:m]; s = s[m+len(sep):]; i++ }
      a[i] = s *)
Fixpoint genSplit (s sep : string) (k : nat) : list string :=
  match k with
  | O => [s]
  | S k' =>
      match Index s sep with
      | None => [s]
      | Some m =>
          slice_to m s :: genSplit (slice_from (m + String.length sep) s) sep k'
      end
  end.

(** [strings.SplitN(s, sep, n)] for a non-empty separator and [n >= 0]
    ([n = 0] yields the nil slice); the source calls it with [";"] and 2. *)
Definition SplitN (s sep : string) (n : nat) : list string :=
  match n with
  | O => []
  | S k => genSplit s sep k
  end.

End strings.

(** ** The identifier codec *)

Record defIgnition : Type := mkDefIgnition {
  Name : string;
  PoolName : string;
  Content : string
}.

Definition newIgnitionDef : defIgnition :=
  {| Name := ""; PoolName := ""; Content := "" |}.

(** [fmt.Sprintf("%s;%s", volumeKey, uuid.TimeOrderedUUID())].  The freshly
    generated token is the argument [uuid]. *)
Definition buildTerraformKey (ign : defIgnition) (uuid : string)
    (volumeKey : string) : string :=
  volumeKey ++ ";" ++ uuid.

Definition getIgnitionVolumeKeyFromTerraformID (id : string)
    : string * option error :=
  let s := strings.SplitN id ";" 2 in
  if negb (Nat.eqb (List.length s) 2)
  then ("", Some (Errorf (id ++ " is not a valid key")))
  else (List.nth 0 s "", None).

(** ** The volume descriptor *)

Module volume.

Record defCapacity : Type := mkCapacity { Unit : string; Value : Z }.
Record defFormat : Type := mkFormat { Type' : string }.
Record defTarget : Type := mkTarget { Format : defFormat }.

(** Modelled from the spec: the volume descriptor type [defVolume] is
    declared outside this file; the descriptor has a name, a capacity (value
    and unit) and a target format type, which are the fields
    [CreateAndUpload] assigns.  The descriptor [newDefVolume()] starts from
    and the XML form are parameters of the environment below. *)
Record defVolume : Type := mkDefVolume {
  Name : string;
  Capacity : defCapacity;
  Target : defTarget
}.

(** Field assignments [volumeDef.Name = v], [volumeDef.Capacity.Unit = v],
    [volumeDef.Capacity.Value = v], [volumeDef.Target.Format.Type = v]. *)
Definition set_Name (v : string) (d : defVolume) : defVolume :=
  {| Name := v; Capacity := Capacity d; Target := Target d |}.

Definition set_Capacity_Unit (v : string) (d : defVolume) : defVolume :=
  {| Name := Name d;
     Capacity := {| Unit := v; Value := Value (Capacity d) |};
     Target := Target d |}.

Definition set_Capacity_Value (v : Z) (d : defVolume) : defVolume :=
  {| Name := Name d;
     Capacity := {| Unit := Unit (Capacity d); Value := v |};
     Target := Target d |}.

Definition set_Target_Format_Type (v : string) (d : defVolume) : defVolume :=
  {| Name := Name d;
     Capacity := Capacity d;
     Target := {| Format := {| Type' := v |} |} |}.

End volume.

(** ** The world the code acts on *)

(** Calls made on the virtualization host and on the pool lock, in program
    order.  [EvStorageVolDelete] is the host's volume-deletion call; it is
    part of the host interface. *)
Inductive Event : Type :=
| EvLookupStoragePoolByName (pool : string)
| EvPoolFree (pool : string)
| EvLock (pool : string)
| EvUnlock (pool : string)
| EvRefresh (pool : string)
| EvStorageVolCreateXML (pool : string) (xml : string)
| EvImport (capacity : Z) (volumeDef : volume.defVolume) (img : string)
| EvGetKey (pool : string) (xml : string)
| EvVolFree (pool : string) (xml : string)
| EvStorageVolDelete (pool : string) (xml : string).

(** The local disk maps the path of every existing file to its bytes; the
    host holds the volumes created so far, by pool and descriptor. *)
Record World : Type := mkWorld {
  fs : gmap string string;
  host_volumes : list (string * string);
  calls : list Event
}.

Definition set_fs (f : gmap string string → gmap string string) (w : World) : World :=
  {| fs := f (fs w); host_volumes := host_volumes w; calls := calls w |}.

Definition set_host_volumes (f : list (string * string) → list (string * string))
    (w : World) : World :=
  {| fs := fs w; host_volumes := f (host_volumes w); calls := calls w |}.

Definition emit (e : Event) (w : World) : World :=
  {| fs := fs w; host_volumes := host_volumes w; calls := calls w ++ [e] |}.

(** What the collaborators outside this file answer: the libvirt host, the
    image inspector and copier, the XML serializer, the JSON parser, the
    token generator and the failures of the local disk.  [None] in an
    [option error] is Go's [nil]. *)
Record Env : Type := mkEnv {
  (* virConn.LookupStoragePoolByName(name) *)
  env_LookupStoragePoolByName : string → option error;
  (* WaitForSuccess(msg, func() error { return pool.Refresh(0) }) *)
  env_WaitForSuccess_Refresh : string → string → option error;
  (* newDefVolume() *)
  env_newDefVolume : volume.defVolume;
  (* ioutil.TempFile(dir, prefix): the path it picks, or its failure *)
  env_TempFile : string → string → error + string;
  (* json.Unmarshal([]byte(s), &js) with js a map[string]interface{} *)
  env_json_Unmarshal : string → option error;
  (* tempFile.WriteString(s): bytes written before the failure, if any *)
  env_WriteString : string → option (nat * error);
  (* os.Open(path) on an existing path *)
  env_Open : string → option error;
  (* io.Copy(tempFile, ignFile): bytes copied before the failure, if any *)
  env_Copy : string → option (nat * error);
  (* os.Remove(path) *)
  env_Remove : string → option error;
  (* newImage(path) *)
  env_newImage : string → option error;
  (* img.Size() *)
  env_Size : string → error + Z;
  (* xml.Marshal(volumeDef) *)
  env_xml_Marshal : volume.defVolume → error + string;
  (* pool.StorageVolCreateXML(xml, 0) *)
  env_StorageVolCreateXML : string → string → option error;
  (* img.Import(newCopier(virConn, volume, capacity), volumeDef) *)
  env_Import : Z → volume.defVolume → string → option error;
  (* volume.GetKey() *)
  env_GetKey : string → string → error + string;
  (* img.String() *)
  env_img_String : string → string;
  (* uuid.TimeOrderedUUID() *)
  env_TimeOrderedUUID : string
}.

(** ** A state monad over the world *)

Definition M (A : Type) : Type := World → A * World.

#[global] Instance M_ret : MRet M := λ A (a : A) w, (a, w).
#[global] Instance M_bind : MBind M :=
  λ A B (f : A → M B) (m : M A) w, let '(a, w') := m w in f a w'.

Definition modify (f : World → World) : M unit := λ w, (tt, f w).
Definition gets {A : Type} (f : World → A) : M A := λ w, (f w, w).

(** [defer cleanup; body]: the deferred call runs when the enclosing function
    returns, after the results have been evaluated.  The function has
    unnamed results, so a deferred call cannot change them. *)
Definition defer {A : Type} (cleanup : M unit) (body : M A) : M A :=
  r ← body; cleanup;; mret r.

(** ** The local disk: packages [os], [io], [io/ioutil] *)

Module os.

(** [os.Stat(name)]: [nil] exactly when the path exists. *)
Definition Stat (name : string) : M (option error) :=
  gets (λ w, match fs w !! name with
             | Some _ => None
             | None => Some (Errorf ("stat " ++ name ++ ": no such file or directory"))
             end).

(** [os.Open(name)]: the handle is the path itself. *)
Definition Open (env : Env) (name : string) : M (string * option error) :=
  st ← Stat name;
  match st with
  | Some e => mret ("", Some e)
  | None =>
      match env_Open env name with
      | Some e => mret ("", Some e)
      | None => mret (name, None)
      end
  end.

(** [os.Remove(name)]. *)
Definition Remove (env : Env) (name : string) : M (option error) :=
  st ← Stat name;
  match st with
  | Some e => mret (Some e)
  | None =>
      match env_Remove env name with
      | Some e => mret (Some e)
      | None => modify (set_fs (delete name));; mret None
      end
  end.

(** [f.WriteString(s)] on the handle [f]: appends at the end of the file;
    a failing write leaves the bytes written before the failure. *)
Definition WriteString (env : Env) (f : string) (s : string) : M (option error) :=
  match env_WriteString env s with
  | None => modify (set_fs (alter (λ old, old ++ s) f));; mret None
  | Some (n, e) =>
      modify (set_fs (alter (λ old, old ++ strings.slice_to n s) f));;
      mret (Some e)
  end.

End os.

Module ioutil.

(** [ioutil.TempFile(dir, prefix)] creates a new file and opens it.  The
    file is created exclusively: a path that exists already is never
    returned, and the new file is empty. *)
Definition TempFile (env : Env) (dir prefix : string) : M (string * option error) :=
  match env_TempFile env dir prefix with
  | inl e => mret ("", Some e)
  | inr name =>
      st ← os.Stat name;
      match st with
      | None => mret ("", Some (Errorf ("open " ++ name ++ ": file exists")))
      | Some _ => modify (set_fs (insert name ""));; mret (name, None)
      end
  end.

End ioutil.

Module io.

(** [io.Copy(dst, src)] on two file handles: appends the bytes of [src] to
    [dst]; a failing copy leaves the bytes copied before the failure. *)
Definition Copy (env : Env) (dst src : string) : M (option error) :=
  data ← gets (λ w, default "" (fs w !! src));
  match env_Copy env data with
  | None => modify (set_fs (alter (λ old, old ++ data) dst));; mret None
  | Some (n, e) =>
      modify (set_fs (alter (λ old, old ++ strings.slice_to n data) dst));;
      mret (Some e)
  end.

End io.

(** ** The payload materializer *)

(** The decision of lines 134-143: [inr file] with [file] set as the source
    sets it, or the error of the early return. *)
Definition classify (env : Env) (ign : defIgnition) : M (error + bool) :=
  st ← os.Stat (Content ign);
  match st with
  | Some _ =>
      match env_json_Unmarshal env (Content ign) with
      | Some _ =>
          mret (inl (Errorf ("coreos_ignition 'content' is neither a file "
                             ++ "nor a valid json object " ++ Content ign)))
      | None => mret (inr false)
      end
  | None => mret (inr true)
  end.

(** [createFile]: the two deferred [Close] calls act on handles only and
    leave the disk as it is; [log.Print] is not modelled. *)
Definition createFile (env : Env) (ign : defIgnition) : M (string * option error) :=
  '(tempFile, err) ← ioutil.TempFile env "" (Name ign);
  match err with
  | Some err =>
      mret ("", Some (Errorf ("Cannot create tmp file for Ignition: " ++ Error err)))
  | None =>
      c ← classify env ign;
      match c with
      | inl e => mret ("", Some e)
      | inr file =>
          if negb file then
            err ← os.WriteString env tempFile (Content ign);
            match err with
            | Some _ =>
                mret ("", Some (Errorf ("Cannot write Ignition object to temporary "
                                        ++ "ignition file")))
            | None => mret (tempFile, None)
            end
          else if file then
            '(ignFile, err) ← os.Open env (Content ign);
            match err with
            | Some _ =>
                mret ("", Some (Errorf ("Error opening supplied Ignition file "
                                        ++ Content ign)))
            | None =>
                err ← io.Copy env tempFile ignFile;
                match err with
                | Some _ =>
                    mret ("", Some (Errorf ("Error copying supplied Igition file to "
                                            ++ "temporary file: " ++ Content ign)))
                | None => mret (tempFile, None)
                end
            end
          else mret (tempFile, None)
      end
  end.

(** ** The host: package [libvirt], the pool lock, the image helpers *)

(** A pool handle is the pool's name; a volume handle is the pool's name and
    the descriptor the volume was created from. *)
Module libvirt.

Definition LookupStoragePoolByName (env : Env) (name : string) : M (option error) :=
  modify (emit (EvLookupStoragePoolByName name));;
  mret (env_LookupStoragePoolByName env name).

Definition pool_Free (pool : string) : M unit :=
  modify (emit (EvPoolFree pool)).

(** [WaitForSuccess(msg, func() error { return pool.Refresh(0) })]: the
    retry wrapper's final answer. *)
Definition WaitForSuccess_Refresh (env : Env) (msg pool : string) : M (option error) :=
  modify (emit (EvRefresh pool));;
  mret (env_WaitForSuccess_Refresh env msg pool).

Definition StorageVolCreateXML (env : Env) (pool xml : string) : M (option error) :=
  modify (emit (EvStorageVolCreateXML pool xml));;
  match env_StorageVolCreateXML env pool xml with
  | Some e => mret (Some e)
  | None => modify (set_host_volumes (λ vs, (vs ++ [(pool, xml)])%list));; mret None
  end.

Definition vol_GetKey (env : Env) (pool xml : string) : M (error + string) :=
  modify (emit (EvGetKey pool xml));;
  mret (env_GetKey env pool xml).

Definition vol_Free (pool xml : string) : M unit :=
  modify (emit (EvVolFree pool xml)).

End libvirt.

(** [lock := poolSync.GetLock(name)] yields the lock of that pool name. *)
Definition lock_Lock (pool : string) : M unit := modify (emit (EvLock pool)).
Definition lock_Unlock (pool : string) : M unit := modify (emit (EvUnlock pool)).

(** [img.Import(newCopier(virConn, volume, capacity), volumeDef)]. *)
Definition img_Import (env : Env) (capacity : Z) (volumeDef : volume.defVolume)
    (img : string) : M (option error) :=
  modify (emit (EvImport capacity volumeDef img));;
  mret (env_Import env capacity volumeDef img).

(** ** The provisioner *)

(** The deferred closure of lines 61-66: the failure of [os.Remove] is logged
    and dropped. *)
Definition remove_tmp (env : Env) (ignFile : string) : M unit :=
  _ ← os.Remove env ignFile; mret tt.

Definition CreateAndUpload (env : Env) (ign : defIgnition) : M (string * option error) :=
  err ← libvirt.LookupStoragePoolByName env (PoolName ign);
  match err with
  | Some err =>
      mret ("", Some (Errorf ("can't find storage pool '" ++ PoolName ign ++ "': "
                              ++ Error err)))
  | None =>
  let pool := PoolName ign in
  defer (libvirt.pool_Free pool) (
  let lock := PoolName ign in
  lock_Lock lock;;
  defer (lock_Unlock lock) (
  err ← libvirt.WaitForSuccess_Refresh env "Error refreshing pool for volume" pool;
  match err with
  | Some err => mret ("", Some err)
  | None =>
  let volumeDef := env_newDefVolume env in
  let volumeDef := volume.set_Name (Name ign) volumeDef in
  '(ignFile, err) ← createFile env ign;
  match err with
  | Some err => mret ("", Some err)
  | None =>
  defer (remove_tmp env ignFile) (
  match env_newImage env ignFile with
  | Some err => mret ("", Some err)
  | None =>
  let img := ignFile in
  match env_Size env img with
  | inl err => mret ("", Some err)
  | inr size =>
  let volumeDef := volume.set_Capacity_Unit "B" volumeDef in
  let volumeDef := volume.set_Capacity_Value size volumeDef in
  let volumeDef := volume.set_Target_Format_Type "raw" volumeDef in
  match env_xml_Marshal env volumeDef with
  | inl err =>
      mret ("", Some (Errorf ("Error serializing libvirt volume: " ++ Error err)))
  | inr volumeDefXml =>
  err ← libvirt.StorageVolCreateXML env pool volumeDefXml;
  match err with
  | Some err =>
      mret ("", Some (Errorf ("Error creating libvirt volume for Ignition "
                              ++ Name ign ++ ": " ++ Error err)))
  | None =>
  defer (libvirt.vol_Free pool volumeDefXml) (
  err ← img_Import env (volume.Value (volume.Capacity volumeDef)) volumeDef img;
  match err with
  | Some err =>
      mret ("", Some (Errorf ("Error while uploading ignition file "
                              ++ env_img_String env img ++ ": " ++ Error err)))
  | None =>
  key ← libvirt.vol_GetKey env pool volumeDefXml;
  match key with
  | inl err => mret ("", Some (Errorf ("Error retrieving volume key: " ++ Error err)))
  | inr key => mret (buildTerraformKey ign (env_TimeOrderedUUID env) key, None)
  end end) end end end end) end end)) end.

(** ** The reverse resolver *)

(** Calls [newIgnitionDefFromRemoteVol] makes on the host, in program order.
    A volume handle is the key it was looked up by; a pool handle is what
    the host answered to [LookupPoolByVolume]. *)
Inductive HostRead : Type :=
| RdLookupStorageVolByKey (key : string)
| RdVolGetName (vol : string)
| RdLookupPoolByVolume (vol : string)
| RdPoolGetName (pool : string)
| RdVolFree (vol : string)
| RdPoolFree (pool : string).

(** What the host answers to those calls.  [GetName] returns a string and an
    error; the source assigns the string before it tests the error. *)
Record HostEnv : Type := mkHostEnv {
  (* virConn.LookupStorageVolByKey(key) *)
  host_LookupStorageVolByKey : string → option error;
  (* volume.GetName() *)
  host_vol_GetName : string → string * option error;
  (* volume.LookupPoolByVolume() *)
  host_LookupPoolByVolume : string → error + string;
  (* volPool.GetName() *)
  host_pool_GetName : string → string * option error
}.

(** The resolver only talks to the host: its state is the list of calls. *)
Definition Rd (A : Type) : Type := list HostRead → A * list HostRead.

#[global] Instance Rd_ret : MRet Rd := λ A (a : A) t, (a, t).
#[global] Instance Rd_bind : MBind Rd :=
  λ A B (f : A → Rd B) (m : Rd A) t, let '(a, t') := m t in f a t'.

Definition call (e : HostRead) : Rd unit := λ t, (tt, (t ++ [e])%list).

Definition defer_rd {A : Type} (cleanup : Rd unit) (body : Rd A) : Rd A :=
  r ← body; cleanup;; mret r.

(** Field assignments [ign.Name = v] and [ign.PoolName = v]. *)
Definition set_ign_Name (v : string) (ign : defIgnition) : defIgnition :=
  {| Name := v; PoolName := PoolName ign; Content := Content ign |}.

Definition set_ign_PoolName (v : string) (ign : defIgnition) : defIgnition :=
  {| Name := Name ign; PoolName := v; Content := Content ign |}.

Definition newIgnitionDefFromRemoteVol (host : HostEnv) (id : string)
    : Rd (defIgnition * option error) :=
  let ign := newIgnitionDef in
  let '(key, err) := getIgnitionVolumeKeyFromTerraformID id in
  match err with
  | Some err => mret (ign, Some err)
  | None =>
  call (RdLookupStorageVolByKey key);;
  match host_LookupStorageVolByKey host key with
  | Some _ => mret (ign, Some (Errorf ("Can't retrieve volume " ++ key)))
  | None =>
  let volume := key in
  defer_rd (call (RdVolFree volume)) (
  call (RdVolGetName volume);;
  let '(name, err) := host_vol_GetName host volume in
  let ign := set_ign_Name name ign in
  match err with
  | Some err =>
      mret (ign, Some (Errorf ("Error retrieving volume name: " ++ Error err)))
  | None =>
  call (RdLookupPoolByVolume volume);;
  match host_LookupPoolByVolume host volume with
  | inl err =>
      mret (ign, Some (Errorf ("Error retrieving pool for volume: " ++ Error err)))
  | inr volPool =>
  defer_rd (call (RdPoolFree volPool)) (
  call (RdPoolGetName volPool);;
  let '(poolName, err) := host_pool_GetName host volPool in
  let ign := set_ign_PoolName poolName ign in
  match err with
  | Some err =>
      mret (ign, Some (Errorf ("Error retrieving pool name: " ++ Error err)))
  | None => mret (ign, None)
  end) end end) end end.

(** ** Concrete environments and worlds, for the examples *)

Module Sample.

Definition defVolume0 : volume.defVolume :=
  {| volume.Name := "";
     volume.Capacity := {| volume.Unit := "bytes"; volume.Value := 1 |};
     volume.Target := {| volume.Format := {| volume.Type' := "qcow2" |} |} |}.

(** A serializer that keeps the four fields apart. *)
Definition marshal (d : volume.defVolume) : string :=
  "<volume><name>" ++ volume.Name d ++ "</name><capacity unit='"
  ++ volume.Unit (volume.Capacity d) ++ "'>"
  ++ (if Z.eqb (volume.Value (volume.Capacity d)) 3 then "3" else "?")
  ++ "</capacity><target><format type='"
  ++ volume.Type' (volume.Format (volume.Target d)) ++ "'/></target></volume>".

(** A stand-in for the JSON parser: it accepts two documents. *)
Definition json (s : string) : option error :=
  if String.eqb s "{}" then None
  else if String.eqb s "{ }" then None
  else Some (Errorf "invalid character").

(** Every collaborator succeeds. *)
Definition ok : Env :=
  {| env_LookupStoragePoolByName := λ _, None;
     env_WaitForSuccess_Refresh := λ _ _, None;
     env_newDefVolume := defVolume0;
     env_TempFile := λ _ prefix, inr ("/tmp/" ++ prefix ++ "123456789");
     env_json_Unmarshal := json;
     env_WriteString := λ _, None;
     env_Open := λ _, None;
     env_Copy := λ _, None;
     env_Remove := λ _, None;
     env_newImage := λ _, None;
     env_Size := λ _, inr 3%Z;
     env_xml_Marshal := λ d, inr (marshal d);
     env_StorageVolCreateXML := λ _ _, None;
     env_Import := λ _ _ _, None;
     env_GetKey := λ pool _, inr ("/var/lib/libvirt/" ++ pool ++ "/node1");
     env_img_String := λ p, p;
     env_TimeOrderedUUID := "58a1f2c4-0000-11e7-93ae-92361f002671" |}.

(** The same, with a temporary directory that cannot be written. *)
Definition no_tmp : Env :=
  {| env_LookupStoragePoolByName := env_LookupStoragePoolByName ok;
     env_WaitForSuccess_Refresh := env_WaitForSuccess_Refresh ok;
     env_newDefVolume := env_newDefVolume ok;
     env_TempFile := λ _ _, inl (Errorf "open /tmp/node1: permission denied");
     env_json_Unmarshal := env_json_Unmarshal ok;
     env_WriteString := env_WriteString ok;
     env_Open := env_Open ok;
     env_Copy := env_Copy ok;
     env_Remove := env_Remove ok;
     env_newImage := env_newImage ok;
     env_Size := env_Size ok;
     env_xml_Marshal := env_xml_Marshal ok;
     env_StorageVolCreateXML := env_StorageVolCreateXML ok;
     env_Import := env_Import ok;
     env_GetKey := env_GetKey ok;
     env_img_String := env_img_String ok;
     env_TimeOrderedUUID := env_TimeOrderedUUID ok |}.

(** The same, with an upload that fails. *)
Definition no_upload : Env :=
  {| env_LookupStoragePoolByName := env_LookupStoragePoolByName ok;
     env_WaitForSuccess_Refresh := env_WaitForSuccess_Refresh ok;
     env_newDefVolume := env_newDefVolume ok;
     env_TempFile := env_TempFile ok;
     env_json_Unmarshal := env_json_Unmarshal ok;
     env_WriteString := env_WriteString ok;
     env_Open := env_Open ok;
     env_Copy := env_Copy ok;
     env_Remove := env_Remove ok;
     env_newImage := env_newImage ok;
     env_Size := env_Size ok;
     env_xml_Marshal := env_xml_Marshal ok;
     env_StorageVolCreateXML := env_StorageVolCreateXML ok;
     env_Import := λ _ _ _, Some (Errorf "stream aborted");
     env_GetKey := env_GetKey ok;
     env_img_String := env_img_String ok;
     env_TimeOrderedUUID := env_TimeOrderedUUID ok |}.

Definition disk : World :=
  {| fs := {[ "/tmp/ign.json" := "{ }" ]}; host_volumes := []; calls := [] |}.

Definition node1 (payload : string) : defIgnition :=
  {| Name := "node1"; PoolName := "default"; Content := payload |}.




End Sample.

Module SampleHost.

(** A host that knows one volume, [node1] in pool [default]. *)
Definition ok : HostEnv :=
  {| host_LookupStorageVolByKey := λ key,
       if String.eqb key "/var/lib/libvirt/default/node1" then None
       else Some (Errorf "Storage volume not found");
     host_vol_GetName := λ _, ("node1", None);
     host_LookupPoolByVolume := λ _, inr "pool-0";
     host_pool_GetName := λ _, ("default", None) |}.

(** The same host, unable to tell the pool of a volume. *)
Definition no_pool : HostEnv :=
  {| host_LookupStorageVolByKey := host_LookupStorageVolByKey ok;
     host_vol_GetName := host_vol_GetName ok;
     host_LookupPoolByVolume := λ _, inl (Errorf "pool is gone");
     host_pool_GetName := host_pool_GetName ok |}.

End SampleHost.

(** * Vocabulary of the properties *)

(** Whether the byte [c] occurs in [s]. *)
Fixpoint contains_byte (c : ascii) (s : string) : bool :=
  match s with
  | EmptyString => false
  | String x s' => Ascii.eqb x c || contains_byte c s'
  end.

(** The errors of the specification's taxonomy, as the source words them. *)
Definition InvalidIdentifier (id : string) : error :=
  Errorf (id ++ " is not a valid key").

Definition InvalidPayloadFormat (content : string) : error :=
  Errorf ("coreos_ignition 'content' is neither a file nor a valid json object "
          ++ content).

Definition TempFileFailed (cause : error) : error :=
  Errorf ("Cannot create tmp file for Ignition: " ++ Error cause).

Definition PoolNotFound (pool : string) (cause : error) : error :=
  Errorf ("can't find storage pool '" ++ pool ++ "': " ++ Error cause).

Definition SerializeFailed (cause : error) : error :=
  Errorf ("Error serializing libvirt volume: " ++ Error cause).

Definition UploadFailed (img : string) (cause : error) : error :=
  Errorf ("Error while uploading ignition file " ++ img ++ ": " ++ Error cause).

Definition KeyRetrievalFailed (cause : error) : error :=
  Errorf ("Error retrieving volume key: " ++ Error cause).

(** The descriptor of lines 54-55 and 78-80, for a probed size. *)
Definition descriptor (env : Env) (ign : defIgnition) (size : Z) : volume.defVolume :=
  volume.set_Target_Format_Type "raw"
    (volume.set_Capacity_Value size
       (volume.set_Capacity_Unit "B"
          (volume.set_Name (Name ign) (env_newDefVolume env)))).

(** The calls every run makes on entering and on leaving the pool. *)
Definition pool_events_in (ign : defIgnition) : list Event :=
  [EvLookupStoragePoolByName (PoolName ign); EvLock (PoolName ign);
   EvRefresh (PoolName ign)].

Definition pool_events_out (ign : defIgnition) : list Event :=
  [EvUnlock (PoolName ign); EvPoolFree (PoolName ign)].

(** Between [w] and [w'] the host got no new volume and no creation call. *)
Definition no_volume_created (w w' : World) : Prop :=
  host_volumes w' = host_volumes w ∧
  ∃ es, calls w' = (calls w ++ es)%list ∧
        ∀ pool xml, EvStorageVolCreateXML pool xml ∉ es.

(** Between [w] and [w'] no volume-deletion call was made. *)
Definition no_volume_deleted (w w' : World) : Prop :=
  ∃ es, calls w' = (calls w ++ es)%list ∧
        ∀ pool xml, EvStorageVolDelete pool xml ∉ es.

(** Every step before the volume creation succeeds: the artifact is
    [ignFile], written in the run of [createFile] that ends in [w1], its
    probed size is [size] and the descriptor serializes to [xml]. *)
Definition prepared (env : Env) (ign : defIgnition) (w : World)
    (ignFile : string) (w1 : World) (size : Z) (xml : string) : Prop :=
  env_LookupStoragePoolByName env (PoolName ign) = None ∧
  env_WaitForSuccess_Refresh env "Error refreshing pool for volume" (PoolName ign) = None ∧
  createFile env ign w = ((ignFile, None), w1) ∧
  env_newImage env ignFile = None ∧
  env_Size env ignFile = inr size ∧
  env_xml_Marshal env (descriptor env ign size) = inr xml.

(** The runs in which a step before the volume creation fails, with the
    error [CreateAndUpload] is to return: pool lookup, pool refresh,
    materialization, image inspection and size probing, serialization. *)
Inductive early_failure (env : Env) (ign : defIgnition) (w : World) : error → Prop :=
| fail_lookup e :
    env_LookupStoragePoolByName env (PoolName ign) = Some e →
    early_failure env ign w (PoolNotFound (PoolName ign) e)
| fail_refresh e :
    env_LookupStoragePoolByName env (PoolName ign) = None →
    env_WaitForSuccess_Refresh env "Error refreshing pool for volume" (PoolName ign)
    = Some e →
    early_failure env ign w e
| fail_createFile p e w1 :
    env_LookupStoragePoolByName env (PoolName ign) = None →
    env_WaitForSuccess_Refresh env "Error refreshing pool for volume" (PoolName ign)
    = None →
    createFile env ign w = ((p, Some e), w1) →
    early_failure env ign w e
| fail_newImage ignFile w1 e :
    env_LookupStoragePoolByName env (PoolName ign) = None →
    env_WaitForSuccess_Refresh env "Error refreshing pool for volume" (PoolName ign)
    = None →
    createFile env ign w = ((ignFile, None), w1) →
    env_newImage env ignFile = Some e →
    early_failure env ign w e
| fail_Size ignFile w1 e :
    env_LookupStoragePoolByName env (PoolName ign) = None →
    env_WaitForSuccess_Refresh env "Error refreshing pool for volume" (PoolName ign)
    = None →
    createFile env ign w = ((ignFile, None), w1) →
    env_newImage env ignFile = None →
    env_Size env ignFile = inl e →
    early_failure env ign w e
| fail_Marshal ignFile w1 size e :
    env_LookupStoragePoolByName env (PoolName ign) = None →
    env_WaitForSuccess_Refresh env "Error refreshing pool for volume" (PoolName ign)
    = None →
    createFile env ign w = ((ignFile, None), w1) →
    env_newImage env ignFile = None →
    env_Size env ignFile = inr size →
    env_xml_Marshal env (descriptor env ign size) = inl e →
    early_failure env ign w (SerializeFailed e).

(** The runs in which the volume described by [xml] is created and a later
    step fails, with the error [CreateAndUpload] is to return. *)
Inductive late_failure (env : Env) (ign : defIgnition) (w : World)
    : string → error → Prop :=
| fail_Import ignFile w1 size xml e :
    prepared env ign w ignFile w1 size xml →
    env_StorageVolCreateXML env (PoolName ign) xml = None →
    env_Import env size (descriptor env ign size) ignFile = Some e →
    late_failure env ign w xml (UploadFailed (env_img_String env ignFile) e)
| fail_GetKey ignFile w1 size xml e :
    prepared env ign w ignFile w1 size xml →
    env_StorageVolCreateXML env (PoolName ign) xml = None →
    env_Import env size (descriptor env ign size) ignFile = None →
    env_GetKey env (PoolName ign) xml = inl e →
    late_failure env ign w xml (KeyRetrievalFailed e).

(** The errors of the reverse resolver, as the source words them. *)
Definition VolumeNotFound (key : string) : error :=
  Errorf ("Can't retrieve volume " ++ key).

Definition NameReadFailed (cause : error) : error :=
  Errorf ("Error retrieving volume name: " ++ Error cause).

Definition PoolLookupFailed (cause : error) : error :=
  Errorf ("Error retrieving pool for volume: " ++ Error cause).

Definition PoolNameReadFailed (cause : error) : error :=
  Errorf ("Error retrieving pool name: " ++ Error cause).

(** [strings.Join(elems, sep)]. *)
Fixpoint Join (elems : list string) (sep : string) : string :=
  match elems with
  | [] => ""
  | [s] => s
  | s :: rest => s ++ sep ++ Join rest sep
  end.

(** What a run of the provisioner holds and must give back: the pool handle,
    the pool lock, the handle of the volume it created. *)
Inductive Resource : Type :=
| PoolHandle (pool : string)
| PoolLock (pool : string)
| VolHandle (pool xml : string).

(** The resources a list of calls obtains, given the host's answers, and the
    resources it gives back, both in the order of the calls. *)
Definition acquired (env : Env) (es : list Event) : list Resource :=
  flat_map (λ e,
    match e with
    | EvLookupStoragePoolByName pool =>
        match env_LookupStoragePoolByName env pool with
        | None => [PoolHandle pool]
        | Some _ => []
        end
    | EvLock pool => [PoolLock pool]
    | EvStorageVolCreateXML pool xml =>
        match env_StorageVolCreateXML env pool xml with
        | None => [VolHandle pool xml]
        | Some _ => []
        end
    | _ => []
    end) es.

Definition released (es : list Event) : list Resource :=
  flat_map (λ e,
    match e with
    | EvPoolFree pool => [PoolHandle pool]
    | EvUnlock pool => [PoolLock pool]
    | EvVolFree pool xml => [VolHandle pool xml]
    | _ => []
    end) es.

(** The same for the resolver: a volume handle, a pool handle. *)
Inductive ReadHandle : Type :=
| RdVol (key : string)
| RdPool (pool : string).

Definition acquired_rd (host : HostEnv) (tr : list HostRead) : list ReadHandle :=
  flat_map (λ c,
    match c with
    | RdLookupStorageVolByKey key =>
        match host_LookupStorageVolByKey host key with
        | None => [RdVol key]
        | Some _ => []
        end
    | RdLookupPoolByVolume vol =>
        match host_LookupPoolByVolume host vol with
        | inr pool => [RdPool pool]
        | inl _ => []
        end
    | _ => []
    end) tr.

Definition released_rd (tr : list HostRead) : list ReadHandle :=
  flat_map (λ c,
    match c with
    | RdVolFree key => [RdVol key]
    | RdPoolFree pool => [RdPool pool]
    | _ => []
    end) tr.

(** The host knows the volume under [key], with the name and the pool of
    the request [ign]. *)
Definition host_has (host : HostEnv) (key : string) (ign : defIgnition) : Prop :=
  host_LookupStorageVolByKey host key = None ∧
  host_vol_GetName host key = (Name ign, None) ∧
  ∃ pool, host_LookupPoolByVolume host key = inr pool ∧
          host_pool_GetName host pool = (PoolName ign, None).

(** * Proof tools *)

(** Unfold one run of the materializer, then of the provisioner around it. *)
Ltac run :=
  unfold createFile, classify, ioutil.TempFile, os.Open, os.Stat,
    os.WriteString, io.Copy, os.Remove, gets, modify,
    mbind, M_bind, mret, M_ret in *;
  cbn in *.

Ltac run_host :=
  unfold CreateAndUpload, defer, remove_tmp, img_Import, lock_Lock, lock_Unlock,
    libvirt.LookupStoragePoolByName, libvirt.pool_Free,
    libvirt.WaitForSuccess_Refresh, libvirt.StorageVolCreateXML,
    libvirt.vol_GetKey, libvirt.vol_Free, os.Remove, os.Stat, gets, modify,
    mbind, M_bind, mret, M_ret in *;
  cbn in *.

Ltac cases := repeat (case_match; simplify_eq; cbn in * ).

Ltac run_rd :=
  unfold newIgnitionDefFromRemoteVol, defer_rd, call,
    mbind, Rd_bind, mret, Rd_ret in *;
  cbn in *.

(** An event list written out holds none of the events of another shape. *)
Ltac not_among :=
  let Hin := fresh "Hin" in
  intros ? ? Hin;
  repeat (apply elem_of_cons in Hin as [Hin|Hin]; [discriminate Hin|]);
  by apply elem_of_nil in Hin.

(** * Properties *)

(** ** Strings *)

Section split_lemmas.

Import strings.

Lemma HasPrefix_nil s : HasPrefix s "" = true.
Proof. by destruct s. Qed.

Lemma append_nil_l s : "" ++ s = s.
Proof. reflexivity. Qed.

Lemma append_cons c a b : String c a ++ b = String c (a ++ b).
Proof. reflexivity. Qed.

Lemma Index_absent s :
  contains_byte ";" s = false → Index s ";" = None.
Proof.
  induction s as [|c s IH]; [done|].
  cbn [contains_byte]. intros [Hc Hs]%orb_false_iff.
  cbn [Index HasPrefix]. rewrite Hc, (IH Hs). done.
Qed.

Lemma Index_first a b :
  contains_byte ";" a = false →
  Index (a ++ String ";" b) ";" = Some (String.length a).
Proof.
  induction a as [|c a IH].
  - intros _. rewrite append_nil_l. cbn. by rewrite ?HasPrefix_nil.
  - cbn [contains_byte]. intros [Hc Ha]%orb_false_iff.
    rewrite append_cons. cbn [Index HasPrefix]. rewrite Hc. by rewrite (IH Ha).
Qed.

Lemma slice_to_app a b : slice_to (String.length a) (a ++ b) = a.
Proof.
  induction a as [|c a IH].
  - rewrite append_nil_l. by destruct b.
  - rewrite append_cons. cbn. by rewrite IH.
Qed.

(** A string either has no [;], or splits at its first [;]. *)
Lemma first_delimiter s :
  contains_byte ";" s = true →
  ∃ a b, s = a ++ String ";" b ∧ contains_byte ";" a = false.
Proof.
  induction s as [|c s IH]; [done|].
  cbn [contains_byte]. destruct (Ascii.eqb c ";") eqn:Hc.
  - intros _. apply Ascii.eqb_eq in Hc as ->. by exists "", s.
  - cbn. intros Hs. destruct (IH Hs) as (a & b & -> & Ha).
    exists (String c a), b. split; [by rewrite append_cons|]. cbn. by rewrite Hc.
Qed.

Lemma SplitN_2_absent s :
  contains_byte ";" s = false → SplitN s ";" 2 = [s].
Proof. intros H. cbn. by rewrite Index_absent. Qed.

Lemma SplitN_2_first a b :
  contains_byte ";" a = false →
  SplitN (a ++ String ";" b) ";" 2
  = [a; slice_from (String.length a + 1) (a ++ String ";" b)].
Proof.
  intros H. cbn [SplitN genSplit]. rewrite Index_first by done.
  rewrite slice_to_app. done.
Qed.

End split_lemmas.

(** ** The identifier codec *)

Example decode_ok :
  getIgnitionVolumeKeyFromTerraformID "/pool/vol;58a1-uuid" = ("/pool/vol", None).
Proof. reflexivity. Qed.

Example decode_no_delimiter :
  getIgnitionVolumeKeyFromTerraformID "abc"
  = ("", Some (Errorf "abc is not a valid key")).
Proof. reflexivity. Qed.

Example decode_first_only :
  getIgnitionVolumeKeyFromTerraformID "a;b;c" = ("a", None).
Proof. reflexivity. Qed.

Lemma decode_absent id :
  contains_byte ";" id = false →
  getIgnitionVolumeKeyFromTerraformID id
  = ("", Some (Errorf (id ++ " is not a valid key"))).
Proof.
  intros H. unfold getIgnitionVolumeKeyFromTerraformID.
  by rewrite SplitN_2_absent.
Qed.

Lemma decode_first a b :
  contains_byte ";" a = false →
  getIgnitionVolumeKeyFromTerraformID (a ++ ";" ++ b) = (a, None).
Proof.
  intros H. change (";" ++ b) with (String ";" b).
  unfold getIgnitionVolumeKeyFromTerraformID.
  by rewrite SplitN_2_first.
Qed.

Lemma append_assoc (a b c : string) : (a ++ b) ++ c = a ++ b ++ c.
Proof.
  induction a as [|x a IH]; [done|].
  rewrite !append_cons. by rewrite IH.
Qed.

(** C2 — decode contract.  An identifier that contains [;] decodes, without
    error, to its part before the first [;]; an identifier without [;] is
    refused with the invalid-identifier error and an empty key. *)
Theorem decode_contract (id : string) :
  (contains_byte ";" id = true →
   ∃ a b, id = a ++ ";" ++ b ∧ contains_byte ";" a = false ∧
          getIgnitionVolumeKeyFromTerraformID id = (a, None)) ∧
  (contains_byte ";" id = false →
   getIgnitionVolumeKeyFromTerraformID id
   = ("", Some (InvalidIdentifier id))).
Proof.
  split.
  - intros (a & b & -> & Ha)%first_delimiter.
    exists a, b. split_and!; [done..|]. by apply (decode_first a b).
  - apply decode_absent.
Qed.

Lemma decode_contract_witness :
  (∃ a b, "abc123;01ef" = a ++ ";" ++ b ∧ contains_byte ";" a = false ∧
          getIgnitionVolumeKeyFromTerraformID "abc123;01ef" = (a, None)) ∧
  getIgnitionVolumeKeyFromTerraformID "abc123"
  = ("", Some (InvalidIdentifier "abc123")).
Proof.
  split.
  - apply (decode_contract "abc123;01ef"). reflexivity.
  - apply (decode_contract "abc123"). reflexivity.
Defined.

(** C1, as stated, fails: a key that itself contains [;] is cut at its first
    [;], so decoding does not give the key back. *)
Lemma roundtrip_counterexample :
  ¬ (∀ (ign : defIgnition) (uuid k : string),
       k ≠ "" →
       getIgnitionVolumeKeyFromTerraformID (buildTerraformKey ign uuid k)
       = (k, None)).
Proof.
  intros H.
  specialize (H newIgnitionDef "58a1f2c4" "pool;vol" ltac:(done)).
  vm_compute in H. discriminate H.
Qed.

(** C1 — identifier round trip, amended.  For a key without [;], decoding
    the identifier built from it succeeds and yields the key, whatever the
    freshness token; for any key, it yields the part before the key's first
    [;]. *)
Theorem roundtrip (ign : defIgnition) (uuid k : string) :
  (contains_byte ";" k = false →
   getIgnitionVolumeKeyFromTerraformID (buildTerraformKey ign uuid k) = (k, None)) ∧
  (∀ a b, k = a ++ ";" ++ b → contains_byte ";" a = false →
   getIgnitionVolumeKeyFromTerraformID (buildTerraformKey ign uuid k) = (a, None)).
Proof.
  unfold buildTerraformKey. split.
  - intros Hk. by apply (decode_first k uuid).
  - intros a b -> Ha.
    rewrite append_assoc, (append_assoc ";" b). by apply decode_first.
Qed.

Lemma roundtrip_witness :
  getIgnitionVolumeKeyFromTerraformID
    (buildTerraformKey newIgnitionDef "58a1f2c4" "/var/lib/libvirt/images/node1")
  = ("/var/lib/libvirt/images/node1", None) ∧
  getIgnitionVolumeKeyFromTerraformID
    (buildTerraformKey newIgnitionDef "58a1f2c4" "pool;vol")
  = ("pool", None).
Proof.
  split.
  - apply (roundtrip newIgnitionDef "58a1f2c4" "/var/lib/libvirt/images/node1").
    reflexivity.
  - apply (proj2 (roundtrip newIgnitionDef "58a1f2c4" "pool;vol") "pool" "vol");
      reflexivity.
Defined.

(** ** The payload materializer *)

Example createFile_inline :
  let '(r, w) := createFile Sample.ok (Sample.node1 "{}") Sample.disk in
  r = ("/tmp/node1123456789", None) ∧ fs w !! "/tmp/node1123456789" = Some "{}".
Proof. vm_compute. done. Qed.

Example createFile_path :
  let '(r, w) := createFile Sample.ok (Sample.node1 "/tmp/ign.json") Sample.disk in
  r = ("/tmp/node1123456789", None) ∧ fs w !! "/tmp/node1123456789" = Some "{ }".
Proof. vm_compute. done. Qed.

(** [createFile] reads and writes the disk only. *)
Lemma createFile_frame env ign w r w1 :
  createFile env ign w = (r, w1) →
  calls w1 = calls w ∧ host_volumes w1 = host_volumes w.
Proof. intros H. run. cases; done. Qed.

Lemma createFile_emit env ign e w :
  createFile env ign (emit e w)
  = let '(r, w1) := createFile env ign w in (r, emit e w1).
Proof. destruct w. run. cases; done. Qed.

(** A failing [createFile] returns the empty path. *)
Lemma createFile_error_path env ign w p e w1 :
  createFile env ign w = ((p, Some e), w1) → p = "".
Proof. intros H. run. cases; done. Qed.






(** C4, as stated, fails: the temporary file is created first, and when that
    fails the payload is never examined. *)
Lemma materialize_rejects_counterexample :
  ¬ (∀ env ign w,
       fs w !! Content ign = None →
       env_json_Unmarshal env (Content ign) ≠ None →
       (createFile env ign w).1 = ("", Some (InvalidPayloadFormat (Content ign)))).
Proof.
  intros H.
  specialize (H Sample.no_tmp (Sample.node1 "not json and not a file") Sample.disk
                eq_refl ltac:(discriminate)).
  vm_compute in H. discriminate H.
Qed.

(** C4 — materializer rejection, amended.  For a payload that is neither an
    existing path nor a JSON document: once the temporary file is created
    (at a path other than the payload), [createFile] fails with the
    invalid-payload error and the empty path; when the temporary file cannot
    be created, it fails with that error and the empty path. *)
Theorem materialize_rejects env ign w e :
  fs w !! Content ign = None →
  env_json_Unmarshal env (Content ign) = Some e →
  (∀ tmp w1, ioutil.TempFile env "" (Name ign) w = ((tmp, None), w1) →
     tmp ≠ Content ign →
     createFile env ign w = (("", Some (InvalidPayloadFormat (Content ign))), w1)) ∧
  (∀ p e' w1, ioutil.TempFile env "" (Name ign) w = ((p, Some e'), w1) →
     createFile env ign w = (("", Some (TempFileFailed e')), w1)).
Proof.
  intros Hc Hj. split.
  - intros tmp w1 Ht Hne. run. cases; simplify_map_eq. reflexivity.
  - intros p e' w1 Ht. run. cases; reflexivity.
Qed.

Lemma materialize_rejects_witness :
  (createFile Sample.ok (Sample.node1 "not json and not a file") Sample.disk).1
  = ("", Some (InvalidPayloadFormat "not json and not a file")) ∧
  (createFile Sample.no_tmp (Sample.node1 "not json and not a file") Sample.disk).1
  = ("", Some (TempFileFailed (Errorf "open /tmp/node1: permission denied"))).
Proof.
  split.
  - rewrite (proj1 (materialize_rejects Sample.ok
                      (Sample.node1 "not json and not a file") Sample.disk
                      (Errorf "invalid character") eq_refl eq_refl)
               "/tmp/node1123456789" _ eq_refl); [reflexivity|discriminate].
  - rewrite (proj2 (materialize_rejects Sample.no_tmp
                      (Sample.node1 "not json and not a file") Sample.disk
                      (Errorf "invalid character") eq_refl eq_refl)
               "" _ _ eq_refl). reflexivity.
Defined.

(** ** The provisioner *)

Example provision_file :
  (CreateAndUpload Sample.ok (Sample.node1 "/tmp/ign.json") Sample.disk).1
  = ("/var/lib/libvirt/default/node1;58a1f2c4-0000-11e7-93ae-92361f002671", None).
Proof. reflexivity. Qed.

Example provision_invalid :
  (CreateAndUpload Sample.ok (Sample.node1 "not json and not a file") Sample.disk).1
  = ("", Some (InvalidPayloadFormat "not json and not a file")).
Proof. reflexivity. Qed.

(** The provisioner calls [createFile] after three calls on the pool; this
    brings the facts about that run back to the caller's world. *)
Ltac back_to_caller :=
  repeat match goal with
    | H : createFile _ _ (emit _ _) = _ |- _ =>
        rewrite !createFile_emit in H;
        let p := fresh "ignFile" in
        let e := fresh "err" in
        let w1 := fresh "w" in
        let Hc := fresh "Hc" in
        let Hcalls := fresh "Hcalls" in
        let Hvols := fresh "Hvols" in
        destruct (createFile _ _ _) as [[p e] w1] eqn:Hc;
        destruct (createFile_frame _ _ _ _ _ Hc) as [Hcalls Hvols];
        simplify_eq
    end.

(** C5 — no partial identifiers.  A run that returns an error returns the
    empty identifier; a non-empty identifier comes with no error. *)
Theorem no_partial_identifier env ign w id err w' :
  CreateAndUpload env ign w = ((id, err), w') →
  (err ≠ None → id = "") ∧ (id ≠ "" → err = None).
Proof.
  intros H. run_host. cases; split; intros; done.
Qed.

Lemma no_partial_identifier_witness :
  (CreateAndUpload Sample.no_upload (Sample.node1 "{}") Sample.disk).1.1 = "" ∧
  (CreateAndUpload Sample.ok (Sample.node1 "{}") Sample.disk).1.2 = None.
Proof.
  split.
  - apply (proj1 (no_partial_identifier Sample.no_upload (Sample.node1 "{}")
                    Sample.disk _ _ _ eq_refl)).
    discriminate.
  - apply (proj2 (no_partial_identifier Sample.ok (Sample.node1 "{}")
                    Sample.disk _ _ _ eq_refl)).
    discriminate.
Defined.

(** C6 — descriptor construction.  In a run that succeeds, exactly one
    volume is created; the descriptor serialized for it and sent to the host
    is named after the request, has the probed size of the artifact as its
    capacity, in unit B, and target format raw. *)
Theorem descriptor_sent env ign w id w' :
  CreateAndUpload env ign w = ((id, None), w') →
  ∃ ignFile w1 size xml d,
    createFile env ign w = ((ignFile, None), w1) ∧
    env_Size env ignFile = inr size ∧
    volume.Name d = Name ign ∧
    volume.Capacity d = {| volume.Unit := "B"; volume.Value := size |} ∧
    volume.Type' (volume.Format (volume.Target d)) = "raw" ∧
    env_xml_Marshal env d = inr xml ∧
    calls w' = (calls w ++ pool_events_in ign
                ++ [EvStorageVolCreateXML (PoolName ign) xml;
                    EvImport size d ignFile;
                    EvGetKey (PoolName ign) xml;
                    EvVolFree (PoolName ign) xml]
                ++ pool_events_out ign)%list ∧
    host_volumes w' = (host_volumes w ++ [(PoolName ign, xml)])%list.
Proof.
  intros H. run_host. cases; back_to_caller.
  all: eexists _, _, _, _, (descriptor env ign _); split_and!; try done.
  all: cbn; rewrite ?Hcalls, ?Hvols, <- ?app_assoc; done.
Qed.

Lemma descriptor_sent_witness :
  ∃ ignFile w1 size xml d,
    createFile Sample.ok (Sample.node1 "/tmp/ign.json") Sample.disk
    = ((ignFile, None), w1) ∧
    env_Size Sample.ok ignFile = inr size ∧
    volume.Name d = "node1" ∧
    volume.Capacity d = {| volume.Unit := "B"; volume.Value := size |} ∧
    volume.Type' (volume.Format (volume.Target d)) = "raw" ∧
    env_xml_Marshal Sample.ok d = inr xml ∧
    calls (CreateAndUpload Sample.ok (Sample.node1 "/tmp/ign.json") Sample.disk).2
    = ([] ++ pool_events_in (Sample.node1 "/tmp/ign.json")
       ++ [EvStorageVolCreateXML "default" xml;
           EvImport size d ignFile;
           EvGetKey "default" xml;
           EvVolFree "default" xml]
       ++ pool_events_out (Sample.node1 "/tmp/ign.json"))%list ∧
    host_volumes (CreateAndUpload Sample.ok (Sample.node1 "/tmp/ign.json") Sample.disk).2
    = ([] ++ [("default", xml)])%list.
Proof.
  apply (descriptor_sent Sample.ok (Sample.node1 "/tmp/ign.json") Sample.disk
           "/var/lib/libvirt/default/node1;58a1f2c4-0000-11e7-93ae-92361f002671").
  reflexivity.
Defined.

(** The converse: when every step succeeds, so does the run. *)
Lemma CreateAndUpload_succeeds env ign w ignFile w1 size xml key :
  prepared env ign w ignFile w1 size xml →
  env_StorageVolCreateXML env (PoolName ign) xml = None →
  env_Import env size (descriptor env ign size) ignFile = None →
  env_GetKey env (PoolName ign) xml = inr key →
  ∃ w', CreateAndUpload env ign w
        = ((buildTerraformKey ign (env_TimeOrderedUUID env) key, None), w').
Proof.
  intros (Hl & Hr & Hc & Hi & Hs & Hm) Hv Hu Hk. unfold descriptor in *.
  run_host. rewrite Hl, Hr. cbn. rewrite !createFile_emit, Hc. cbn.
  rewrite Hi, Hs, Hm. cbn. rewrite Hv. cbn. rewrite Hu, Hk. cbn.
  cases; eauto.
Qed.

(** C7 — no volume on early failure.  When pool lookup, pool refresh,
    materialization, size probing or serialization fails, the run returns
    that step's error with the empty identifier, makes no volume-creation
    call, and leaves the host's volumes as they were. *)
Theorem early_failure_creates_nothing env ign w e :
  early_failure env ign w e →
  ∃ w', CreateAndUpload env ign w = (("", Some e), w') ∧ no_volume_created w w'.
Proof.
  unfold no_volume_created.
  destruct 1 as [e Hl|e Hl Hr|p e w1 Hl Hr Hc|p w1 e Hl Hr Hc Hi
                 |p w1 e Hl Hr Hc Hi Hs|p w1 size e Hl Hr Hc Hi Hs Hm].
  all: destruct (createFile_frame _ _ _ _ _ Hc) as [Hcalls Hvols] || idtac.
  all: unfold descriptor in *.
  all: run_host; rewrite Hl; cbn; rewrite ?Hr; cbn.
  all: rewrite ?createFile_emit, ?Hc; cbn; rewrite ?Hi, ?Hs, ?Hm; cbn.
  all: cases.
  all: eexists; split; [reflexivity|]; cbn.
  all: rewrite ?Hcalls, ?Hvols, <- ?app_assoc.
  all: (split; [done|]); eexists; (split; [reflexivity|]); not_among.
Qed.

Lemma early_failure_creates_nothing_witness :
  ∃ w', CreateAndUpload Sample.ok (Sample.node1 "not json and not a file") Sample.disk
        = (("", Some (InvalidPayloadFormat "not json and not a file")), w') ∧
        no_volume_created Sample.disk w'.
Proof.
  apply (early_failure_creates_nothing Sample.ok
           (Sample.node1 "not json and not a file") Sample.disk).
  eapply fail_createFile; reflexivity.
Defined.

(** C8 — no rollback after creation.  No run makes a volume-deletion call
    or removes a volume from the host; when the upload or the key retrieval
    fails after the volume was created, the run returns that error and the
    volume stays on the host. *)
Theorem no_rollback env ign w r w' :
  CreateAndUpload env ign w = (r, w') →
  no_volume_deleted w w' ∧
  host_volumes w `prefix_of` host_volumes w' ∧
  (∀ xml e, late_failure env ign w xml e →
     r = ("", Some e) ∧
     host_volumes w' = (host_volumes w ++ [(PoolName ign, xml)])%list).
Proof.
  intros H. unfold no_volume_deleted. split_and!.
  - run_host. cases; back_to_caller; cbn.
    all: rewrite ?Hcalls, <- ?app_assoc.
    all: eexists; (split; [reflexivity|]); not_among.
  - run_host. cases; back_to_caller; cbn.
    all: rewrite ?Hvols; try done.
    all: by apply prefix_app_r.
  - intros xml e.
    destruct 1 as [p w1 size xml e (Hl & Hr & Hc & Hi & Hs & Hm) Hv Hu
                  |p w1 size xml e (Hl & Hr & Hc & Hi & Hs & Hm) Hv Hu Hk].
    all: destruct (createFile_frame _ _ _ _ _ Hc) as [Hcalls Hvols].
    all: unfold descriptor in *.
    all: run_host; rewrite Hl in H; cbn in H; rewrite Hr in H; cbn in H.
    all: rewrite !createFile_emit, Hc in H; cbn in H.
    all: rewrite Hi, Hs, Hm in H; cbn in H; rewrite Hv in H; cbn in H.
    all: rewrite ?Hu, ?Hk in H; cbn in H.
    all: cases; cbn; by rewrite Hvols.
Qed.

Lemma no_rollback_witness :
  no_volume_deleted Sample.disk
    (CreateAndUpload Sample.no_upload (Sample.node1 "{}") Sample.disk).2 ∧
  (CreateAndUpload Sample.no_upload (Sample.node1 "{}") Sample.disk).1
  = ("", Some (UploadFailed "/tmp/node1123456789" (Errorf "stream aborted"))) ∧
  host_volumes (CreateAndUpload Sample.no_upload (Sample.node1 "{}") Sample.disk).2
  = [("default", Sample.marshal (descriptor Sample.no_upload (Sample.node1 "{}") 3))].
Proof.
  pose proof (no_rollback Sample.no_upload (Sample.node1 "{}") Sample.disk _ _ eq_refl)
    as (Hdel & _ & Hlate).
  split; [exact Hdel|].
  apply (Hlate (Sample.marshal (descriptor Sample.no_upload (Sample.node1 "{}") 3))).
  refine (fail_Import Sample.no_upload (Sample.node1 "{}") Sample.disk
            "/tmp/node1123456789"
            (createFile Sample.no_upload (Sample.node1 "{}") Sample.disk).2
            3 _ (Errorf "stream aborted") _ eq_refl eq_refl).
  repeat split; reflexivity.
Defined.

(** C10 — the temporary file outlives a failed materialization.  When
    [createFile] fails after it created its temporary file (the payload is
    refused, or the write, the open or the copy fails), that file, which did
    not exist before, is still on the disk when [createFile] returns; and
    [CreateAndUpload], which reaches [createFile] once the pool is found and
    refreshed, then returns the error with the disk as [createFile] left
    it. *)
Theorem tmp_file_persists env ign w tmp w0 p e w1 :
  ioutil.TempFile env "" (Name ign) w = ((tmp, None), w0) →
  createFile env ign w = ((p, Some e), w1) →
  fs w !! tmp = None ∧
  is_Some (fs w1 !! tmp) ∧
  (env_LookupStoragePoolByName env (PoolName ign) = None →
   env_WaitForSuccess_Refresh env "Error refreshing pool for volume" (PoolName ign)
   = None →
   ∃ w', CreateAndUpload env ign w = (("", Some e), w') ∧
         fs w' = fs w1 ∧ is_Some (fs w' !! tmp)).
Proof.
  intros Ht Hc.
  assert (fs w !! tmp = None ∧ is_Some (fs w1 !! tmp)) as [Hnew Hkept].
  { clear -Ht Hc. run. cases; split; try done; simplify_map_eq; eauto. }
  split_and!; [done..|].
  intros Hl Hr. run_host. rewrite Hl; cbn. rewrite Hr; cbn.
  rewrite !createFile_emit, Hc. cbn. eauto.
Qed.

Lemma tmp_file_persists_witness :
  (Sample.disk.(fs) !! "/tmp/node1123456789" = None) ∧
  is_Some (fs (createFile Sample.ok (Sample.node1 "not json and not a file")
                 Sample.disk).2 !! "/tmp/node1123456789") ∧
  ∃ w', CreateAndUpload Sample.ok (Sample.node1 "not json and not a file") Sample.disk
        = (("", Some (InvalidPayloadFormat "not json and not a file")), w') ∧
        fs w' = fs (createFile Sample.ok (Sample.node1 "not json and not a file")
                      Sample.disk).2 ∧
        is_Some (fs w' !! "/tmp/node1123456789").
Proof.
  pose proof (tmp_file_persists Sample.ok (Sample.node1 "not json and not a file")
                Sample.disk "/tmp/node1123456789" _ _ _ _ eq_refl eq_refl)
    as (Hnew & Hkept & Hrun).
  split; [exact Hnew|]. split; [exact Hkept|].
  apply Hrun; reflexivity.
Defined.

(** ** The pool lock *)

(** Every run that finds the pool takes the lock named by the pool right
    after the lookup and releases it last but for freeing the pool handle;
    everything in between happens with the lock held, and the lock is taken
    and released once. *)
Lemma lock_brackets_run env ign w r w' :
  CreateAndUpload env ign w = (r, w') →
  env_LookupStoragePoolByName env (PoolName ign) = None →
  ∃ es, calls w' = (calls w
                    ++ [EvLookupStoragePoolByName (PoolName ign); EvLock (PoolName ign)]
                    ++ es ++ pool_events_out ign)%list ∧
        ∀ pool, (EvLock pool ∉ es) ∧ (EvUnlock pool ∉ es).
Proof.
  intros H Hl. run_host. rewrite Hl in H. cbn in H.
  cases; back_to_caller; cbn; rewrite ?Hcalls, <- ?app_assoc; cbn.
  all: first [ eexists [_]; split; [reflexivity|]
             | eexists [_; _]; split; [reflexivity|]
             | eexists [_; _; _]; split; [reflexivity|]
             | eexists [_; _; _; _]; split; [reflexivity|]
             | eexists [_; _; _; _; _]; split; [reflexivity|] ].
  all: intros pool; split; intros Hin.
  all: repeat (apply elem_of_cons in Hin as [Hin|Hin]; [discriminate Hin|]).
  all: by apply elem_of_nil in Hin.
Qed.

(** * Further properties *)

(** ** The materializer and the disk *)

(** X1 — [createFile] touches its temporary file only: whatever the run
    returns, every path of the disk reads as before, except the path
    [ioutil.TempFile] picked, which did not exist before. *)
Theorem createFile_touches_tmp_only env ign w r w1 :
  createFile env ign w = (r, w1) →
  ∀ q, fs w1 !! q = fs w !! q ∨
       (env_TempFile env "" (Name ign) = inr q ∧ fs w !! q = None).
Proof.
  intros H q. run. cases; try (by left).
  all: destruct (decide (q = s)) as [->|Hne]; [by right|left].
  all: by rewrite ?lookup_alter_ne, ?lookup_insert_ne by done.
Qed.

Lemma createFile_touches_tmp_only_witness :
  fs (createFile Sample.ok (Sample.node1 "{}") Sample.disk).2 !! "/tmp/ign.json"
  = fs Sample.disk !! "/tmp/ign.json".
Proof.
  destruct (createFile_touches_tmp_only Sample.ok (Sample.node1 "{}") Sample.disk
              _ _ eq_refl "/tmp/ign.json") as [H|[H _]].
  - exact H.
  - vm_compute in H. discriminate H.
Defined.

Lemma createFile_keeps_files env ign w r w1 q data :
  createFile env ign w = (r, w1) →
  fs w !! q = Some data → fs w1 !! q = Some data.
Proof.
  intros H Hq. run. cases; try done.
  all: assert (q ≠ s) by congruence.
  all: by rewrite ?lookup_alter_ne, ?lookup_insert_ne by done.
Qed.

Lemma createFile_artifact_fresh env ign w p w1 :
  createFile env ign w = ((p, None), w1) →
  fs w !! p = None ∧ env_TempFile env "" (Name ign) = inr p.
Proof. intros H. run. cases; done. Qed.

Lemma createFile_artifact_exists env ign w p w1 :
  createFile env ign w = ((p, None), w1) → is_Some (fs w1 !! p).
Proof. intros H. run. cases; simplify_map_eq; eauto. Qed.

Lemma createFile_then_remove env ign w p w1 :
  createFile env ign w = ((p, None), w1) →
  delete p (fs w1) = fs w.
Proof.
  intros H. destruct (createFile_artifact_fresh _ _ _ _ _ H) as [Hp Ht].
  apply map_eq. intros q. destruct (decide (q = p)) as [->|Hne].
  - by rewrite lookup_delete_eq.
  - rewrite lookup_delete_ne by done. clear Hp Ht.
    run. cases; by rewrite ?lookup_alter_ne, ?lookup_insert_ne by done.
Qed.

(** X2 — the provisioner gives the disk back.  No run removes or changes a
    file that existed before; and when the artifact was written and
    [os.Remove] works, the disk is, at return, exactly what it was at the
    call, whether the later steps succeed or fail. *)
Theorem provision_restores_disk env ign w r w' :
  CreateAndUpload env ign w = (r, w') →
  (∀ q data, fs w !! q = Some data → fs w' !! q = Some data) ∧
  (∀ ignFile w1, createFile env ign w = ((ignFile, None), w1) →
     env_Remove env ignFile = None → fs w' = fs w).
Proof.
  intros H. split.
  - intros q data Hq. run_host. cases; back_to_caller; cbn; try done.
    all: match goal with
         | Hc : createFile _ _ _ = (_, Some _, _) |- _ =>
             apply (createFile_keeps_files _ _ _ _ _ _ _ Hc Hq)
         | Hc : createFile _ _ _ = (?p, None, _) |- _ =>
             destruct (createFile_artifact_fresh _ _ _ _ _ Hc) as [Hfresh _];
             rewrite ?lookup_delete_ne by congruence;
             apply (createFile_keeps_files _ _ _ _ _ _ _ Hc Hq)
         end.
  - intros ignFile w1 Hc Hrm. run_host. cases; back_to_caller; cbn; try done.
    all: try congruence.
    all: try by eapply createFile_then_remove.
    all: exfalso; cbn in *;
      match goal with
      | Hc : createFile _ _ _ = (?p, None, ?w1), H : fs ?w1 !! ?p = None |- _ =>
          destruct (createFile_artifact_exists _ _ _ _ _ Hc); congruence
      end.
Qed.

Lemma provision_restores_disk_witness :
  fs (CreateAndUpload Sample.no_upload (Sample.node1 "{}") Sample.disk).2
  = fs Sample.disk.
Proof.
  apply (proj2 (provision_restores_disk Sample.no_upload (Sample.node1 "{}")
                  Sample.disk _ _ eq_refl)
           "/tmp/node1123456789"
           (createFile Sample.no_upload (Sample.node1 "{}") Sample.disk).2).
  - reflexivity.
  - reflexivity.
Defined.

(** ** Identifiers *)

Lemma append_cancel_l (a x y : string) : a ++ x = a ++ y → x = y.
Proof.
  induction a as [|c a IH]; [done|].
  rewrite !append_cons. intros [= H]. by apply IH.
Qed.

Lemma decode_build_clean ign u k :
  contains_byte ";" k = false →
  getIgnitionVolumeKeyFromTerraformID (buildTerraformKey ign u k) = (k, None).
Proof. intros H. by apply (decode_first k u). Qed.

Lemma decode_build_succeeds ign u k :
  (getIgnitionVolumeKeyFromTerraformID (buildTerraformKey ign u k)).2 = None.
Proof.
  unfold buildTerraformKey. destruct (contains_byte ";" k) eqn:Hk.
  - destruct (first_delimiter _ Hk) as (a & b & -> & Ha).
    change (String ";" b) with (";" ++ b).
    rewrite append_assoc, (append_assoc ";" b).
    by rewrite (decode_first a _ Ha).
  - by rewrite (decode_first k u Hk).
Qed.

Lemma decode_cases id :
  (contains_byte ";" id = false ∧
   getIgnitionVolumeKeyFromTerraformID id = ("", Some (InvalidIdentifier id))) ∨
  (∃ key token, id = key ++ ";" ++ token ∧ contains_byte ";" key = false ∧
                getIgnitionVolumeKeyFromTerraformID id = (key, None)).
Proof.
  destruct (contains_byte ";" id) eqn:H.
  - right. destruct (first_delimiter _ H) as (a & b & -> & Ha).
    exists a, b. split_and!; [done..|]. by apply (decode_first a b).
  - left. split; [done|]. by apply decode_absent.
Qed.

(** X3 — an identifier tells its key and its token apart: for keys without
    [;], two identifiers are equal only if they were built from the same key
    and the same token (so two identifiers of one volume differ exactly when
    their tokens differ); the receiver plays no part. *)
Theorem identifier_injective ign1 ign2 u1 u2 k1 k2 :
  contains_byte ";" k1 = false → contains_byte ";" k2 = false →
  buildTerraformKey ign1 u1 k1 = buildTerraformKey ign2 u2 k2 →
  k1 = k2 ∧ u1 = u2.
Proof.
  intros H1 H2 Heq.
  pose proof (decode_build_clean ign1 u1 k1 H1) as D1.
  pose proof (decode_build_clean ign2 u2 k2 H2) as D2.
  rewrite Heq, D2 in D1. injection D1 as ->. split; [done|].
  unfold buildTerraformKey in Heq.
  apply append_cancel_l in Heq. by injection Heq.
Qed.

Lemma identifier_injective_witness :
  "/pool/node1" = "/pool/node1" ∧ "58a1" = "58a1".
Proof.
  apply (identifier_injective newIgnitionDef (Sample.node1 "{}")
           "58a1" "58a1" "/pool/node1" "/pool/node1");
    reflexivity.
Defined.

(** What a successful run did: it created one volume, from the serialized
    descriptor of the request, read that volume's key, and returned the
    identifier built from that key and the fresh token. *)
Lemma provision_success_shape env ign w id w' :
  CreateAndUpload env ign w = ((id, None), w') →
  ∃ size xml key,
    env_xml_Marshal env (descriptor env ign size) = inr xml ∧
    host_volumes w' = (host_volumes w ++ [(PoolName ign, xml)])%list ∧
    env_GetKey env (PoolName ign) xml = inr key ∧
    id = buildTerraformKey ign (env_TimeOrderedUUID env) key.
Proof.
  intros H. run_host. cases; back_to_caller; cbn; rewrite ?Hvols.
  all: eexists _, _, _; by split_and!.
Qed.

(** X4 — every identifier the provisioner issues can be decoded: a run that
    succeeds adds one volume to the host, and returns the key the host gave
    for that volume, then [;], then the fresh token; decoding that
    identifier never fails, and yields that key whenever the key has no
    [;]. *)
Theorem issued_identifier_decodes env ign w id w' :
  CreateAndUpload env ign w = ((id, None), w') →
  ∃ xml key,
    host_volumes w' = (host_volumes w ++ [(PoolName ign, xml)])%list ∧
    env_GetKey env (PoolName ign) xml = inr key ∧
    id = key ++ ";" ++ env_TimeOrderedUUID env ∧
    (getIgnitionVolumeKeyFromTerraformID id).2 = None ∧
    (contains_byte ";" key = false →
     getIgnitionVolumeKeyFromTerraformID id = (key, None)).
Proof.
  intros H.
  destruct (provision_success_shape _ _ _ _ _ H)
    as (size & xml & key & _ & Hvol & Hkey & ->).
  exists xml, key. split_and!; [done..| |].
  - apply decode_build_succeeds.
  - apply decode_build_clean.
Qed.

Lemma issued_identifier_decodes_witness :
  ∃ xml key,
    host_volumes (CreateAndUpload Sample.ok (Sample.node1 "{}") Sample.disk).2
    = (host_volumes Sample.disk ++ [("default", xml)])%list ∧
    env_GetKey Sample.ok "default" xml = inr key ∧
    "/var/lib/libvirt/default/node1;58a1f2c4-0000-11e7-93ae-92361f002671"
    = key ++ ";" ++ env_TimeOrderedUUID Sample.ok ∧
    (getIgnitionVolumeKeyFromTerraformID
       "/var/lib/libvirt/default/node1;58a1f2c4-0000-11e7-93ae-92361f002671").2
    = None ∧
    (contains_byte ";" key = false →
     getIgnitionVolumeKeyFromTerraformID
       "/var/lib/libvirt/default/node1;58a1f2c4-0000-11e7-93ae-92361f002671"
     = (key, None)).
Proof.
  apply (issued_identifier_decodes Sample.ok (Sample.node1 "{}") Sample.disk
           "/var/lib/libvirt/default/node1;58a1f2c4-0000-11e7-93ae-92361f002671"
           (CreateAndUpload Sample.ok (Sample.node1 "{}") Sample.disk).2).
  reflexivity.
Defined.

(** ** The provisioner's resources *)

(** X5 — the provisioner gives back what it holds: in every run, on every
    exit path, the pool handle, the pool lock and the handle of the created
    volume are released exactly once each, in the reverse order of their
    acquisition, and nothing else is released. *)
Theorem provision_releases_what_it_holds env ign w r w' :
  CreateAndUpload env ign w = (r, w') →
  ∃ es, calls w' = (calls w ++ es)%list ∧
        released es = rev (acquired env es).
Proof.
  intros H. run_host. cases; back_to_caller; cbn.
  all: rewrite ?Hcalls, <- ?app_assoc.
  all: eexists; (split; [reflexivity|]).
  all: unfold acquired, released; cbn.
  all: repeat match goal with H : _ = _ |- _ => rewrite H end; try done.
Qed.

Lemma provision_releases_what_it_holds_witness :
  ∃ es,
    calls (CreateAndUpload Sample.no_upload (Sample.node1 "{}") Sample.disk).2
    = (calls Sample.disk ++ es)%list ∧
    released es = rev (acquired Sample.no_upload es).
Proof.
  apply (provision_releases_what_it_holds Sample.no_upload (Sample.node1 "{}")
           Sample.disk
           (CreateAndUpload Sample.no_upload (Sample.node1 "{}") Sample.disk).1).
  reflexivity.
Defined.

(** X6 — at most one volume, in the requested pool: a run either leaves the
    host's volumes as they were or adds one volume, in the pool the request
    names, created from the serialized descriptor of the request. *)
Theorem at_most_one_volume env ign w r w' :
  CreateAndUpload env ign w = (r, w') →
  host_volumes w' = host_volumes w ∨
  ∃ size xml,
    env_xml_Marshal env (descriptor env ign size) = inr xml ∧
    env_StorageVolCreateXML env (PoolName ign) xml = None ∧
    host_volumes w' = (host_volumes w ++ [(PoolName ign, xml)])%list.
Proof.
  intros H. run_host. cases; back_to_caller; cbn; rewrite ?Hvols.
  all: try (by left).
  all: right; eexists _, _; by split_and!.
Qed.

Lemma at_most_one_volume_witness :
  host_volumes (CreateAndUpload Sample.ok (Sample.node1 "nope") Sample.disk).2
  = host_volumes Sample.disk ∨
  ∃ size xml,
    env_xml_Marshal Sample.ok (descriptor Sample.ok (Sample.node1 "nope") size)
    = inr xml ∧
    env_StorageVolCreateXML Sample.ok "default" xml = None ∧
    host_volumes (CreateAndUpload Sample.ok (Sample.node1 "nope") Sample.disk).2
    = (host_volumes Sample.disk ++ [("default", xml)])%list.
Proof.
  apply (at_most_one_volume Sample.ok (Sample.node1 "nope") Sample.disk
           (CreateAndUpload Sample.ok (Sample.node1 "nope") Sample.disk).1).
  reflexivity.
Defined.

(** X7 — when the provisioner succeeds: a run returns an identifier without
    error exactly when every step succeeds, that is the pool is found and
    refreshed, the artifact is written, inspected and sized, the descriptor
    serialized, the volume created, the artifact uploaded and the key
    read. *)
Theorem provision_succeeds_iff env ign w :
  (∃ id w', CreateAndUpload env ign w = ((id, None), w')) ↔
  (∃ ignFile w1 size xml key,
     prepared env ign w ignFile w1 size xml ∧
     env_StorageVolCreateXML env (PoolName ign) xml = None ∧
     env_Import env size (descriptor env ign size) ignFile = None ∧
     env_GetKey env (PoolName ign) xml = inr key).
Proof.
  split.
  - intros (id & w' & H). unfold prepared. run_host. cases; back_to_caller.
    all: eexists _, _, _, _, _; by split_and!.
  - intros (ignFile & w1 & size & xml & key & Hp & Hv & Hu & Hk).
    destruct (CreateAndUpload_succeeds _ _ _ _ _ _ _ _ Hp Hv Hu Hk) as [w' Hw'].
    eauto.
Qed.

Lemma provision_succeeds_iff_witness :
  ∃ id w',
    CreateAndUpload Sample.ok (Sample.node1 "{}") Sample.disk = ((id, None), w').
Proof.
  apply (proj2 (provision_succeeds_iff Sample.ok (Sample.node1 "{}") Sample.disk)).
  exists "/tmp/node1123456789",
    (createFile Sample.ok (Sample.node1 "{}") Sample.disk).2, 3%Z,
    (Sample.marshal (descriptor Sample.ok (Sample.node1 "{}") 3)),
    "/var/lib/libvirt/default/node1".
  repeat split; reflexivity.
Defined.

(** X8 — the order of the pool calls: a run that does not find the pool
    makes the lookup and nothing else; every other run looks the pool up,
    takes the pool's lock, refreshes the pool, and ends by releasing the
    lock and then the pool handle, with no further lock, unlock, refresh or
    release of the pool in between. *)
Theorem provision_lock_discipline env ign w r w' :
  CreateAndUpload env ign w = (r, w') →
  match env_LookupStoragePoolByName env (PoolName ign) with
  | Some _ =>
      calls w' = (calls w ++ [EvLookupStoragePoolByName (PoolName ign)])%list
  | None =>
      ∃ es, calls w' = (calls w ++ pool_events_in ign
                        ++ es ++ pool_events_out ign)%list ∧
            ∀ pool, (EvLock pool ∉ es) ∧ (EvUnlock pool ∉ es) ∧
                    (EvRefresh pool ∉ es) ∧ (EvPoolFree pool ∉ es)
  end.
Proof.
  intros H. run_host. cases; back_to_caller; cbn; rewrite ?Hcalls, <- ?app_assoc; cbn.
  all: try done.
  all: first [ eexists []; split; [reflexivity|]
             | eexists [_]; split; [reflexivity|]
             | eexists [_; _]; split; [reflexivity|]
             | eexists [_; _; _]; split; [reflexivity|]
             | eexists [_; _; _; _]; split; [reflexivity|] ].
  all: intros pool; split_and!; intros Hin.
  all: repeat (apply elem_of_cons in Hin as [Hin|Hin]; [discriminate Hin|]).
  all: by apply elem_of_nil in Hin.
Qed.

Lemma provision_lock_discipline_witness :
  ∃ es,
    calls (CreateAndUpload Sample.ok (Sample.node1 "nope") Sample.disk).2
    = (calls Sample.disk ++ pool_events_in (Sample.node1 "nope")
       ++ es ++ pool_events_out (Sample.node1 "nope"))%list ∧
    ∀ pool, (EvLock pool ∉ es) ∧ (EvUnlock pool ∉ es) ∧
            (EvRefresh pool ∉ es) ∧ (EvPoolFree pool ∉ es).
Proof.
  exact (provision_lock_discipline Sample.ok (Sample.node1 "nope") Sample.disk
           (CreateAndUpload Sample.ok (Sample.node1 "nope") Sample.disk).1
           (CreateAndUpload Sample.ok (Sample.node1 "nope") Sample.disk).2
           eq_refl).
Defined.

(** ** The reverse resolver *)

Example resolve_known :
  newIgnitionDefFromRemoteVol SampleHost.ok
    "/var/lib/libvirt/default/node1;58a1f2c4" []
  = (({| Name := "node1"; PoolName := "default"; Content := "" |}, None),
     [RdLookupStorageVolByKey "/var/lib/libvirt/default/node1";
      RdVolGetName "/var/lib/libvirt/default/node1";
      RdLookupPoolByVolume "/var/lib/libvirt/default/node1";
      RdPoolGetName "pool-0"; RdPoolFree "pool-0";
      RdVolFree "/var/lib/libvirt/default/node1"]).
Proof. reflexivity. Qed.

Example resolve_unknown :
  newIgnitionDefFromRemoteVol SampleHost.ok "abc123;01ef" []
  = ((newIgnitionDef, Some (VolumeNotFound "abc123")),
     [RdLookupStorageVolByKey "abc123"]).
Proof. reflexivity. Qed.

(** X9 — a malformed identifier never reaches the host: for an identifier
    without [;] the resolver returns the empty record and the
    invalid-identifier error, and makes no call on the host. *)
Theorem resolve_rejects_malformed host id t :
  contains_byte ";" id = false →
  newIgnitionDefFromRemoteVol host id t
  = ((newIgnitionDef, Some (InvalidIdentifier id)), t).
Proof.
  intros H. unfold newIgnitionDefFromRemoteVol.
  rewrite (decode_absent id H). reflexivity.
Qed.

Lemma resolve_rejects_malformed_witness :
  newIgnitionDefFromRemoteVol SampleHost.ok "abc123" []
  = ((newIgnitionDef, Some (InvalidIdentifier "abc123")), []).
Proof.
  apply (resolve_rejects_malformed SampleHost.ok "abc123" []). reflexivity.
Defined.

(** X10 — the freshness token plays no part in resolution: two identifiers
    with the same key (without [;]) resolve alike, result and host calls,
    whatever their tokens. *)
Theorem resolve_ignores_token host key token token' t :
  contains_byte ";" key = false →
  newIgnitionDefFromRemoteVol host (key ++ ";" ++ token) t
  = newIgnitionDefFromRemoteVol host (key ++ ";" ++ token') t.
Proof.
  intros H. unfold newIgnitionDefFromRemoteVol.
  by rewrite !(decode_first key _ H).
Qed.

Lemma resolve_ignores_token_witness :
  newIgnitionDefFromRemoteVol SampleHost.ok ("abc123" ++ ";" ++ "01ef") []
  = newIgnitionDefFromRemoteVol SampleHost.ok ("abc123" ++ ";" ++ "77aa;x") [].
Proof.
  apply (resolve_ignores_token SampleHost.ok "abc123" "01ef" "77aa;x" []).
  reflexivity.
Defined.

(** X11 — the resolver gives back the handles it obtains: in every run, on
    every exit path, the volume handle and the pool handle are freed exactly
    once each when they were obtained, the pool's before the volume's, and
    nothing else is freed. *)
Theorem resolve_releases_handles host id t r t' :
  newIgnitionDefFromRemoteVol host id t = (r, t') →
  ∃ tr, t' = (t ++ tr)%list ∧ released_rd tr = rev (acquired_rd host tr).
Proof.
  intros H. unfold newIgnitionDefFromRemoteVol in H.
  destruct (decode_cases id) as [[_ Hd]|(key & token & -> & Hk & Hd)];
    rewrite Hd in H; run_rd.
  - simplify_eq. exists []. split; [by rewrite app_nil_r|done].
  - cases; rewrite <- ?app_assoc.
    all: eexists; (split; [reflexivity|]).
    all: unfold acquired_rd, released_rd; cbn.
    all: repeat match goal with H : _ = _ |- _ => rewrite H end; done.
Qed.

Lemma resolve_releases_handles_witness :
  ∃ tr,
    (newIgnitionDefFromRemoteVol SampleHost.no_pool
       "/var/lib/libvirt/default/node1;58a1f2c4" []).2 = ([] ++ tr)%list ∧
    released_rd tr = rev (acquired_rd SampleHost.no_pool tr).
Proof.
  apply (resolve_releases_handles SampleHost.no_pool
           "/var/lib/libvirt/default/node1;58a1f2c4" []
           (newIgnitionDefFromRemoteVol SampleHost.no_pool
              "/var/lib/libvirt/default/node1;58a1f2c4" []).1).
  reflexivity.
Defined.

(** X12 — when the resolver succeeds: it returns a record without error
    exactly when the identifier has a [;], the host knows a volume under the
    part before the first [;], and reads its name, its pool and the pool's
    name; the record then holds that name and that pool name, and an empty
    content. *)
Theorem resolve_succeeds_iff host id t ign :
  (∃ t', newIgnitionDefFromRemoteVol host id t = ((ign, None), t')) ↔
  (∃ key token, id = key ++ ";" ++ token ∧ contains_byte ";" key = false ∧
                host_has host key ign ∧ Content ign = "").
Proof.
  unfold host_has. split.
  - intros (t' & H). unfold newIgnitionDefFromRemoteVol in H.
    destruct (decode_cases id) as [[_ Hd]|(key & token & -> & Hk & Hd)];
      rewrite Hd in H; run_rd; [done|].
    exists key, token. cases. split_and!; eauto.
  - intros (key & token & -> & Hk & (Hl & Hn & pool & Hp & Hpn) & Hc).
    unfold newIgnitionDefFromRemoteVol. rewrite (decode_first key token Hk).
    run_rd. rewrite Hl; cbn. rewrite Hn; cbn. rewrite Hp; cbn. rewrite Hpn; cbn.
    destruct ign as [n p c]; cbn in *; subst. eauto.
Qed.

Lemma resolve_succeeds_iff_witness :
  ∃ t',
    newIgnitionDefFromRemoteVol SampleHost.ok
      ("/var/lib/libvirt/default/node1" ++ ";" ++ "58a1f2c4") []
    = (({| Name := "node1"; PoolName := "default"; Content := "" |}, None), t').
Proof.
  apply (proj2 (resolve_succeeds_iff SampleHost.ok
                  ("/var/lib/libvirt/default/node1" ++ ";" ++ "58a1f2c4") []
                  {| Name := "node1"; PoolName := "default"; Content := "" |})).
  exists "/var/lib/libvirt/default/node1", "58a1f2c4".
  split; [reflexivity|]. split; [reflexivity|]. split; [|reflexivity].
  split; [reflexivity|]. split; [reflexivity|].
  exists "pool-0". split; reflexivity.
Defined.

(** X13 — provisioning, then resolving: when a run succeeds, creating the
    volume described by [xml], and the host keeps that volume under the key
    it gave for it (a key without [;]), with the name and in the pool of the
    request, resolving the identifier the run returned yields the request's
    name and pool name; the content is not recovered. *)
Theorem provision_then_resolve env ign w id w' host t xml key :
  CreateAndUpload env ign w = ((id, None), w') →
  host_volumes w' = (host_volumes w ++ [(PoolName ign, xml)])%list →
  env_GetKey env (PoolName ign) xml = inr key →
  contains_byte ";" key = false →
  host_has host key ign →
  (newIgnitionDefFromRemoteVol host id t).1
  = ({| Name := Name ign; PoolName := PoolName ign; Content := "" |}, None).
Proof.
  intros H Hvol Hkey Hclean (Hl & Hn & pool & Hp & Hpn).
  destruct (provision_success_shape _ _ _ _ _ H)
    as (size & xml0 & key0 & _ & Hvol0 & Hkey0 & ->).
  rewrite Hvol in Hvol0. apply app_inv_head in Hvol0. injection Hvol0 as <-.
  rewrite Hkey in Hkey0. injection Hkey0 as <-.
  unfold newIgnitionDefFromRemoteVol. rewrite (decode_build_clean _ _ _ Hclean).
  run_rd. rewrite Hl; cbn. rewrite Hn; cbn. rewrite Hp; cbn. by rewrite Hpn.
Qed.

Lemma provision_then_resolve_witness :
  (newIgnitionDefFromRemoteVol SampleHost.ok
     (CreateAndUpload Sample.ok (Sample.node1 "/tmp/ign.json") Sample.disk).1.1
     []).1
  = ({| Name := "node1"; PoolName := "default"; Content := "" |}, None).
Proof.
  apply (provision_then_resolve Sample.ok (Sample.node1 "/tmp/ign.json")
           Sample.disk _
           (CreateAndUpload Sample.ok (Sample.node1 "/tmp/ign.json") Sample.disk).2
           SampleHost.ok []
           (Sample.marshal
              (descriptor Sample.ok (Sample.node1 "/tmp/ign.json") 3))
           "/var/lib/libvirt/default/node1").
  - reflexivity.
  - reflexivity.
  - reflexivity.
  - reflexivity.
  - split; [reflexivity|]. split; [reflexivity|].
    exists "pool-0". split; reflexivity.
Defined.

(** ** Splitting *)

Lemma HasPrefix_app s sep :
  strings.HasPrefix s sep = true →
  s = sep ++ strings.slice_from (String.length sep) s.
Proof.
  revert s. induction sep as [|c sep IH]; intros s H.
  - rewrite append_nil_l. by destruct s.
  - destruct s as [|x s]; [done|]. cbn in H.
    destruct (Ascii.eqb x c) eqn:Hx; [|done].
    apply Ascii.eqb_eq in Hx as ->.
    rewrite append_cons. cbn. by rewrite <- (IH s H).
Qed.

Lemma Index_split s sep m :
  strings.Index s sep = Some m →
  s = strings.slice_to m s ++ sep
      ++ strings.slice_from (m + String.length sep) s.
Proof.
  revert m. induction s as [|c s IH]; intros m H.
  - cbn [strings.Index] in H.
    destruct (strings.HasPrefix "" sep) eqn:Hp; [|done].
    injection H as <-. cbn [strings.slice_to Nat.add]. rewrite append_nil_l.
    by apply HasPrefix_app.
  - cbn [strings.Index] in H.
    destruct (strings.HasPrefix (String c s) sep) eqn:Hp.
    + injection H as <-. cbn [strings.slice_to]. rewrite append_nil_l.
      by apply HasPrefix_app.
    + destruct (strings.Index s sep) as [m'|] eqn:Hi; [|done]. cbn in H.
      injection H as <-. cbn [strings.slice_to Nat.add strings.slice_from].
      rewrite append_cons. by rewrite <- (IH m' eq_refl).
Qed.

Lemma genSplit_join s sep k :
  Join (strings.genSplit s sep k) sep = s ∧
  (List.length (strings.genSplit s sep k) ≤ S k)%nat ∧
  strings.genSplit s sep k ≠ [].
Proof.
  revert s. induction k as [|k IH]; intros s; cbn [strings.genSplit].
  - split_and!; cbn; [done|lia|done].
  - destruct (strings.Index s sep) as [m|] eqn:Hi;
      [|split_and!; cbn; [done|lia|done]].
    destruct (IH (strings.slice_from (m + String.length sep) s)) as (Hj & Hl & Hne).
    split_and!; [|cbn; lia|done].
    cbn [Join]. destruct (strings.genSplit _ sep k) as [|p ps] eqn:Hg; [done|].
    rewrite Hj. symmetry. by apply Index_split.
Qed.

(** X14 — splitting loses nothing: for a non-empty separator and a positive
    count [n], [SplitN] yields between one and [n] pieces, and joining them
    with the separator gives the string back; so the decoder's two segments
    of an identifier, joined by [;], are the identifier. *)
Theorem SplitN_join s sep n :
  sep ≠ "" → (0 < n)%nat →
  Join (strings.SplitN s sep n) sep = s ∧
  (1 ≤ List.length (strings.SplitN s sep n) ≤ n)%nat.
Proof.
  intros _ Hn. destruct n as [|k]; [lia|]. cbn [strings.SplitN].
  destruct (genSplit_join s sep k) as (Hj & Hl & Hne).
  split; [done|]. split; [|done].
  destruct (strings.genSplit s sep k); [done|cbn; lia].
Qed.

Lemma SplitN_join_witness :
  Join (strings.SplitN "abc123;01ef;x" ";" 2) ";" = "abc123;01ef;x" ∧
  (1 ≤ List.length (strings.SplitN "abc123;01ef;x" ";" 2) ≤ 2)%nat.
Proof.
  apply (SplitN_join "abc123;01ef;x" ";" 2); [discriminate|lia].
Defined.
